(** * PDR AI sidecar: embedding, reranking and entity extraction endpoints

    A shallow embedding of the sidecar service (app/models/*.py and
    app/routes/*.py) and the properties of its request/response glue.

    - Python [str] values are modelled as [string]; a character is a code
      point in the range 0..255, on which [str.strip], [str.lower], slicing
      and [len] are written out below.
    - The three pretrained models are black boxes: [encode], [predict] and
      the NER pipeline are functions carried by the wrapper records.
    - Calls to a wrapper method or to a model are recorded in a call log, so
      that "the model is not invoked" is a statement about the log. *)

From Stdlib Require Import Ascii String NArith Floats.
From stdpp Require Import base decidable list strings gmap sets.


(** ** Python string operations *)

Module PyStr.

Definition ord (c : ascii) : N := N_of_ascii c.

(** [str.isspace] on one code point below 256: TAB..CR, FS..US, SPACE,
    NEL (0x85) and NBSP (0xA0). *)
Definition isspace (c : ascii) : bool :=
  let n := ord c in
  ((9 <=? n) && (n <=? 13) || (28 <=? n) && (n <=? 32)
   || (n =? 133) || (n =? 160))%N.

(** [str.lower] on one code point below 256: A..Z and the Latin-1 capitals
    0xC0..0xDE except the multiplication sign 0xD7. *)
Definition lower_char (c : ascii) : ascii :=
  let n := ord c in
  if ((65 <=? n) && (n <=? 90)
      || (192 <=? n) && (n <=? 222) && negb (n =? 215))%N
  then ascii_of_N (n + 32) else c.

Fixpoint lower (s : string) : string :=
  match s with
  | EmptyString => EmptyString
  | String c s' => String (lower_char c) (lower s')
  end.

Definition len (s : string) : nat := String.length s.

(** [not s] *)
Definition is_empty (s : string) : bool :=
  match s with EmptyString => true | String _ _ => false end.

Fixpoint lstrip (s : string) : string :=
  match s with
  | EmptyString => EmptyString
  | String c s' => if isspace c then lstrip s' else s
  end.

Fixpoint rstrip (s : string) : string :=
  match s with
  | EmptyString => EmptyString
  | String c s' =>
      let r := rstrip s' in
      if isspace c && is_empty r then EmptyString else String c r
  end.

(** [s.strip()] *)
Definition strip (s : string) : string := rstrip (lstrip s).

(** [s[:n]] *)
Fixpoint slice_to (n : nat) (s : string) : string :=
  match n, s with
  | O, _ => EmptyString
  | S _, EmptyString => EmptyString
  | S n', String c s' => String c (slice_to n' s')
  end.

(** [re.sub(r"^##", "", s)]: without the MULTILINE flag the anchor matches
    at position 0 only, so at most one leading marker is removed. *)
Definition sub_leading_marker (s : string) : string :=
  match s with
  | String "#" (String "#" rest) => rest
  | _ => s
  end.

Definition first_char (s : string) : option ascii :=
  match s with EmptyString => None | String c _ => Some c end.

Fixpoint last_char (s : string) : option ascii :=
  match s with
  | EmptyString => None
  | String c EmptyString => Some c
  | String _ s' => last_char s'
  end.

End PyStr.

(** ** Call log

    A wrapper method or a model inference call is an observable event of a
    request.  A computation returns its value together with the calls it made,
    in program order. *)

Inductive Call : Type :=
| Embedder_embed_call (texts : list string)
| SentenceTransformer_encode_call (texts : list string)
| Reranker_rerank_call (query : string) (documents : list string)
| CrossEncoder_predict_call (pairs : list (string * string))
| EntityExtractor_extract_call (texts : list string)
| Pipeline_call (text : string).

Record Logged (A : Type) : Type := Log { result : A; calls : list Call }.
Arguments Log {A} _ _.
Arguments result {A} _.
Arguments calls {A} _.

#[export] Instance Logged_ret : MRet Logged := λ A x, Log x [].

#[export] Instance Logged_bind : MBind Logged := λ A B f m,
  let r := f (result m) in Log (result r) (calls m ++ calls r).

(** Perform the call [c], whose outcome is [x]. *)
Definition invoke {A : Type} (c : Call) (x : A) : Logged A := Log x [c].

(** ** app/models/embedder.py *)

Module embedder.

(** The sentence-transformers model: a black box with an [encode] method
    and a fixed embedding dimension. *)
Record SentenceTransformer : Type := {
  encode : list string → list (list float);
  get_sentence_embedding_dimension : nat
}.

Record Embedder : Type := {
  model : SentenceTransformer;
  dimension : nat
}.

(** [Embedder.__init__], given the loaded model. *)
Definition init (loaded : SentenceTransformer) : Embedder :=
  {| model := loaded;
     dimension := get_sentence_embedding_dimension loaded |}.

(** [Embedder.embed]; [tolist()] keeps the rows and their order. *)
Definition embed (self : Embedder) (texts : list string)
  : Logged (list (list float)) :=
  _ ← invoke (Embedder_embed_call texts) tt;
  embeddings ← invoke (SentenceTransformer_encode_call texts)
                      (encode (model self) texts);
  mret embeddings.

End embedder.

(** ** app/models/reranker.py *)

Module reranker.

Record CrossEncoder : Type := {
  predict : list (string * string) → list float
}.

Record Reranker : Type := { model : CrossEncoder }.

Definition init (loaded : CrossEncoder) : Reranker := {| model := loaded |}.

(** [Reranker.rerank] *)
Definition rerank (self : Reranker) (query : string) (documents : list string)
  : Logged (list float) :=
  _ ← invoke (Reranker_rerank_call query documents) tt;
  match documents with
  | [] => mret []
  | _ :: _ =>
      let pairs := map (λ doc, (query, doc)) documents in
      scores ← invoke (CrossEncoder_predict_call pairs)
                      (predict (model self) pairs);
      mret scores
  end.

End reranker.

(** ** app/models/ner.py *)

Module ner.

(** One aggregated span of the token-classification pipeline. *)
Module RawSpan.
Record t : Type := { word : string; entity_group : string; score : float }.
End RawSpan.

(** The transformers NER pipeline: a black box from a text to its spans. *)
Record Pipeline : Type := { run : string → list RawSpan.t }.

(** An entry of a chunk's ["entities"] list. *)
Module EntityDict.
Record t : Type := { text : string; label : string; score : float }.
End EntityDict.

(** An entry of the list returned by [extract]. *)
Module ChunkDict.
Record t : Type := { text : string; entities : list EntityDict.t }.
End ChunkDict.

Record EntityExtractor : Type := { pipe : Pipeline }.

Definition init (loaded : Pipeline) : EntityExtractor := {| pipe := loaded |}.

(** Line 16: the map from a device string to a transformers device index. *)
Definition DEVICE_MAP : gmap string Z :=
  {[ "cpu" := (-1)%Z; "cuda" := 0%Z; "cuda:0" := 0%Z; "cuda:1" := 1%Z ]}.

(** Line 28: [DEVICE_MAP.get(device, -1)]. *)
Definition device_idx (device : string) : Z :=
  default (-1)%Z (DEVICE_MAP !! device).

(** [EntityExtractor.__init__] (lines 22-35); [pipeline] is the transformers
    factory, here applied to the model name and the device index (the task
    and the aggregation strategy are constants). *)
Definition init_on (pipeline : string → Z → Pipeline)
    (model_name device : string) : EntityExtractor :=
  let device_idx := device_idx device in
  {| pipe := pipeline model_name device_idx |}.

Section extract.

(** Python's [round(x, ndigits)] on floats. *)
Variable round : float → nat → float.

(** Lines 61 and 63: the cleaned surface text of a span. *)
Definition clean_word (w : string) : string :=
  PyStr.strip (PyStr.sub_leading_marker (PyStr.strip w)).

(** Line 64: [not word or len(word) < 2]. *)
Definition too_short (word : string) : bool :=
  PyStr.is_empty word || (PyStr.len word <? 2)%nat.

(** Line 67: the f-string [f"{word.lower()}|{label}"]. *)
Definition dedup_key (word label : string) : string :=
  PyStr.lower word +:+ "|" +:+ label.

(** The body of the loop over the raw spans of one chunk (lines 60-78); the
    state is the pair of [entities] and [seen]. *)
Definition extract_step (st : list EntityDict.t * gset string) (ent : RawSpan.t)
  : list EntityDict.t * gset string :=
  let word := clean_word (RawSpan.word ent) in
  if too_short word then st
  else
    let key := dedup_key word (RawSpan.entity_group ent) in
    if bool_decide (key ∈ st.2) then st
    else
      (st.1 ++ [ {| EntityDict.text := word;
                    EntityDict.label := RawSpan.entity_group ent;
                    EntityDict.score := round (RawSpan.score ent) 4 |} ],
       {[ key ]} ∪ st.2).

(** Lines 57-78: the entity list of one chunk from its raw spans. *)
Definition chunk_entities (raw : list RawSpan.t) : list EntityDict.t :=
  (foldl extract_step ([], ∅) raw).1.

(** The loop over the chunks (lines 52-80), [results] being the list built
    so far. *)
Fixpoint extract_loop (self : EntityExtractor) (texts : list string)
    (results : list ChunkDict.t) : Logged (list ChunkDict.t) :=
  match texts with
  | [] => mret results
  | text :: rest =>
      let truncated := PyStr.slice_to 2048 text in
      raw ← invoke (Pipeline_call truncated) (run (pipe self) truncated);
      let entities := chunk_entities raw in
      extract_loop self rest
        (results ++ [ {| ChunkDict.text := truncated;
                         ChunkDict.entities := entities |} ])
  end.

(** [EntityExtractor.extract] *)
Definition extract (self : EntityExtractor) (texts : list string)
  : Logged (list ChunkDict.t) :=
  _ ← invoke (EntityExtractor_extract_call texts) tt;
  extract_loop self texts [].

End extract.

End ner.

(** ** Request validation and HTTP responses

    A pydantic [Field(..., min_length=n)] constraint is checked when the
    request model is built from the body; every violated constraint yields one
    error naming the field, and FastAPI answers 422 without calling the
    handler. *)

Module ValidationError.
Record t : Type := { loc : string; min_length : nat; actual_length : nat }.
End ValidationError.

Inductive HttpResponse (A : Type) : Type :=
| Ok200 (body : A)
| UnprocessableEntity422 (detail : list ValidationError.t).
Arguments Ok200 {A} _.
Arguments UnprocessableEntity422 {A} _.

Definition check_min_length (field : string) (min actual : nat)
  : list ValidationError.t :=
  if (actual <? min)%nat
  then [ {| ValidationError.loc := field;
            ValidationError.min_length := min;
            ValidationError.actual_length := actual |} ]
  else [].

(** ** app/main.py: the models shared for the lifetime of the application *)

Module main.

Record AppState : Type := {
  embedder : embedder.Embedder;
  reranker : reranker.Reranker;
  entity_extractor : ner.EntityExtractor
}.

(** [lifespan]: the three wrappers are constructed once at start-up. *)
Definition lifespan (st : embedder.SentenceTransformer)
    (ce : reranker.CrossEncoder) (pl : ner.Pipeline) : AppState :=
  {| embedder := embedder.init st;
     reranker := reranker.init ce;
     entity_extractor := ner.init pl |}.

End main.

(** ** app/routes/embed.py *)

Module routes_embed.

Module EmbedRequest.
Record t : Type := { texts : list string }.

(** [texts: list[str] = Field(..., min_length=1)] *)
Definition validate (texts : list string) : list ValidationError.t + t :=
  match check_min_length "texts" 1 (length texts) with
  | [] => inr {| texts := texts |}
  | errors => inl errors
  end.
End EmbedRequest.

Module EmbedResponse.
Record t : Type := {
  embeddings : list (list float);
  dimension : nat;
  count : nat
}.
End EmbedResponse.

(** The handler [embed]. *)
Definition embed (state : main.AppState) (req : EmbedRequest.t)
  : Logged EmbedResponse.t :=
  let embedder := main.embedder state in
  vectors ← embedder.embed embedder (EmbedRequest.texts req);
  mret {| EmbedResponse.embeddings := vectors;
          EmbedResponse.dimension := embedder.dimension embedder;
          EmbedResponse.count := length vectors |}.

(** [POST /embed] with body [{texts}]. *)
Definition post (state : main.AppState) (texts : list string)
  : Logged (HttpResponse EmbedResponse.t) :=
  match EmbedRequest.validate texts with
  | inl errors => mret (UnprocessableEntity422 errors)
  | inr req => resp ← embed state req; mret (Ok200 resp)
  end.

End routes_embed.

(** ** app/routes/rerank.py *)

Module routes_rerank.

Module RerankRequest.
Record t : Type := { query : string; documents : list string }.

(** [query: str = Field(..., min_length=1)] and
    [documents: list[str] = Field(..., min_length=1)] *)
Definition validate (query : string) (documents : list string)
  : list ValidationError.t + t :=
  match check_min_length "query" 1 (PyStr.len query)
        ++ check_min_length "documents" 1 (length documents) with
  | [] => inr {| query := query; documents := documents |}
  | errors => inl errors
  end.
End RerankRequest.

Module RerankResponse.
Record t : Type := { scores : list float; count : nat }.
End RerankResponse.

(** The handler [rerank]. *)
Definition rerank (state : main.AppState) (req : RerankRequest.t)
  : Logged RerankResponse.t :=
  let reranker := main.reranker state in
  scores ← reranker.rerank reranker (RerankRequest.query req)
                           (RerankRequest.documents req);
  mret {| RerankResponse.scores := scores;
          RerankResponse.count := length scores |}.

(** [POST /rerank] with body [{query, documents}]. *)
Definition post (state : main.AppState) (query : string)
    (documents : list string) : Logged (HttpResponse RerankResponse.t) :=
  match RerankRequest.validate query documents with
  | inl errors => mret (UnprocessableEntity422 errors)
  | inr req => resp ← rerank state req; mret (Ok200 resp)
  end.

End routes_rerank.

(** ** app/routes/entities.py *)

Module routes_entities.

Module Entity.
Record t : Type := { text : string; label : string; score : float }.
End Entity.

Module ChunkEntities.
Record t : Type := { text : string; entities : list Entity.t }.
End ChunkEntities.

Module ExtractEntitiesRequest.
Record t : Type := { chunks : list string }.

(** [chunks: list[str] = Field(..., min_length=1)] *)
Definition validate (chunks : list string) : list ValidationError.t + t :=
  match check_min_length "chunks" 1 (length chunks) with
  | [] => inr {| chunks := chunks |}
  | errors => inl errors
  end.
End ExtractEntitiesRequest.

Module ExtractEntitiesResponse.
Record t : Type := { results : list ChunkEntities.t; total_entities : nat }.
End ExtractEntitiesResponse.

Section handler.

Variable round : float → nat → float.

(** [Entity(text=e["text"], label=e["label"], score=e["score"])] *)
Definition to_Entity (e : ner.EntityDict.t) : Entity.t :=
  {| Entity.text := ner.EntityDict.text e;
     Entity.label := ner.EntityDict.label e;
     Entity.score := ner.EntityDict.score e |}.

(** The body of the loop over [raw_results] (lines 43-49); the state is the
    pair of [results] and [total]. *)
Definition collect_step (st : list ChunkEntities.t * nat) (item : ner.ChunkDict.t)
  : list ChunkEntities.t * nat :=
  let entities := map to_Entity (ner.ChunkDict.entities item) in
  (st.1 ++ [ {| ChunkEntities.text := ner.ChunkDict.text item;
                ChunkEntities.entities := entities |} ],
   st.2 + length entities).

(** The handler [extract_entities]. *)
Definition extract_entities (state : main.AppState)
    (req : ExtractEntitiesRequest.t) : Logged ExtractEntitiesResponse.t :=
  let extractor := main.entity_extractor state in
  raw_results ← ner.extract round extractor (ExtractEntitiesRequest.chunks req);
  let st := foldl collect_step ([], 0) raw_results in
  mret {| ExtractEntitiesResponse.results := st.1;
          ExtractEntitiesResponse.total_entities := st.2 |}.

(** [POST /extract-entities] with body [{chunks}]. *)
Definition post (state : main.AppState) (chunks : list string)
  : Logged (HttpResponse ExtractEntitiesResponse.t) :=
  match ExtractEntitiesRequest.validate chunks with
  | inl errors => mret (UnprocessableEntity422 errors)
  | inr req => resp ← extract_entities state req; mret (Ok200 resp)
  end.

End handler.

End routes_entities.

(** ** Vocabulary of the statements about one chunk's spans *)

Module span.

(** The cleaned surface text of a raw span. *)
Definition text (s : ner.RawSpan.t) : string :=
  ner.clean_word (ner.RawSpan.word s).

(** The span passes the noise filter of line 64. *)
Definition survives (s : ner.RawSpan.t) : Prop :=
  ner.too_short (text s) = false.

(** The pair (lower-cased cleaned text, label) of a span. *)
Definition pair (s : ner.RawSpan.t) : string * string :=
  (PyStr.lower (text s), ner.RawSpan.entity_group s).

(** The string put into [seen] for a span. *)
Definition key (s : ner.RawSpan.t) : string :=
  ner.dedup_key (text s) (ner.RawSpan.entity_group s).

(** The dict appended to [entities] for a span that is kept. *)
Definition entity (round : float → nat → float) (s : ner.RawSpan.t)
  : ner.EntityDict.t :=
  {| ner.EntityDict.text := text s;
     ner.EntityDict.label := ner.RawSpan.entity_group s;
     ner.EntityDict.score := round (ner.RawSpan.score s) 4 |}.

(** The span [s], met after the spans [before] of the same chunk, reaches
    line 68 and finds its key in [seen]. *)
Definition dropped_as_duplicate (round : float → nat → float)
    (before : list ner.RawSpan.t) (s : ner.RawSpan.t) : Prop :=
  survives s ∧ key s ∈ (foldl (ner.extract_step round) ([], ∅) before).2.

End span.

(** The pair (lower-cased text, label) and the key string of an output
    entity. *)
Definition entity_pair (e : ner.EntityDict.t) : string * string :=
  (PyStr.lower (ner.EntityDict.text e), ner.EntityDict.label e).

Definition entity_key (e : ner.EntityDict.t) : string :=
  ner.dedup_key (ner.EntityDict.text e) (ner.EntityDict.label e).

(** What [extract] returns for one chunk. *)
Definition chunk_result (round : float → nat → float)
    (self : ner.EntityExtractor) (text : string) : ner.ChunkDict.t :=
  let truncated := PyStr.slice_to 2048 text in
  {| ner.ChunkDict.text := truncated;
     ner.ChunkDict.entities :=
       ner.chunk_entities round (ner.run (ner.pipe self) truncated) |}.

(** The key string as a function of the pair. *)
Definition key_of_pair (p : string * string) : string := p.1 +:+ "|" +:+ p.2.

(** The invariant of the loop over the spans: the keys of [entities] are
    pairwise distinct and all in [seen]. *)
Definition keys_inv (st : list ner.EntityDict.t * gset string) : Prop :=
  NoDup (entity_key <$> st.1) ∧ ∀ e, e ∈ st.1 → entity_key e ∈ st.2.

(** The model is run on the truncated chunks, in order. *)
Definition pipeline_calls (texts : list string) : list Call :=
  (λ t, Pipeline_call (PyStr.slice_to 2048 t)) <$> texts.

(** A chunk of the route's response, from a chunk of the wrapper. *)
Definition to_ChunkEntities (item : ner.ChunkDict.t) : routes_entities.ChunkEntities.t :=
  {| routes_entities.ChunkEntities.text := ner.ChunkDict.text item;
     routes_entities.ChunkEntities.entities :=
       routes_entities.to_Entity <$> ner.ChunkDict.entities item |}.

(** ** Contracts of the external models

    The inference libraries are not part of the service.  What the service
    relies on is stated here and appears as a hypothesis where it is used. *)

(** [SentenceTransformer.encode] returns one vector per text, in input order,
    each text being encoded on its own. *)
Definition encodes_each (m : embedder.SentenceTransformer)
    (encode_one : string → list float) : Prop :=
  ∀ texts, embedder.encode m texts = encode_one <$> texts.

(** [CrossEncoder.predict] returns one score per pair, in input order, each
    pair being scored on its own. *)
Definition scores_each (m : reranker.CrossEncoder)
    (score : string * string → float) : Prop :=
  ∀ pairs, reranker.predict m pairs = score <$> pairs.

(** ** Small concrete models, used to run the service on examples *)

Module demo.

Definition mk_span (w l : string) : ner.RawSpan.t :=
  {| ner.RawSpan.word := w; ner.RawSpan.entity_group := l;
     ner.RawSpan.score := 0.5%float |}.

(** A rounding function that leaves 0.5 alone. *)
Definition round (x : float) (ndigits : nat) : float := x.

Definition encode_one (t : string) : list float :=
  [PrimFloat.of_uint63 (Uint63.of_Z (Z.of_nat (PyStr.len t))); 1%float].

Definition sentence_transformer : embedder.SentenceTransformer :=
  {| embedder.encode := map encode_one;
     embedder.get_sentence_embedding_dimension := 2 |}.

Definition score_pair (p : string * string) : float :=
  if String.eqb p.1 p.2 then 1%float else 0%float.

Definition cross_encoder : reranker.CrossEncoder :=
  {| reranker.predict := map score_pair |}.

(** A pipeline that reports the whole text as one span and then a fixed
    organisation twice. *)
Definition pipeline : ner.Pipeline :=
  {| ner.run := λ t, [mk_span t "MISC"; mk_span " Microsoft" "ORG";
                      mk_span "##microsoft" "ORG"] |}.

Definition state : main.AppState :=
  main.lifespan sentence_transformer cross_encoder pipeline.

(** A pipeline whose labels contain the separator of the key string. *)
Definition bar_pipeline : ner.Pipeline :=
  {| ner.run := λ _, [mk_span "aa|b" "C"; mk_span "aa" "b|C";
                      mk_span "aa" "b|C"] |}.

Definition bar_extractor : ner.EntityExtractor := ner.init bar_pipeline.

(** A chunk of exactly 2048 characters. *)
Definition long_text : string :=
  string_of_list_ascii (replicate 2048 "a"%char).

(** A pipeline factory that reports the device index it was given. *)
Definition pipeline_on (model_name : string) (device_idx : Z) : ner.Pipeline :=
  {| ner.run := λ t,
       [mk_span t (if (device_idx <? 0)%Z then "CPU" else "GPU")] |}.

End demo.

(** * Properties *)

(** ** Strings *)

Example strip_marker_ex : ner.clean_word "  ##ing  " = "ing".
Proof. reflexivity. Qed.

Example marker_once_ex : ner.clean_word "####ab" = "##ab".
Proof. reflexivity. Qed.

Example lower_ex : PyStr.lower "Bill Gates|X" = "bill gates|x".
Proof. reflexivity. Qed.

Example slice_ex : PyStr.slice_to 3 "hello" = "hel".
Proof. reflexivity. Qed.

Example dedup_ex :
  ner.chunk_entities demo.round
    [demo.mk_span "Microsoft" "ORG"; demo.mk_span "x" "MISC";
     demo.mk_span "##microsoft " "ORG"; demo.mk_span "Microsoft" "MISC"]
  = [span.entity demo.round (demo.mk_span "Microsoft" "ORG");
     span.entity demo.round (demo.mk_span "Microsoft" "MISC")].
Proof. reflexivity. Qed.

Section string_facts.

Implicit Types (s t : string) (c : ascii) (n : nat).

Lemma slice_to_len n s : PyStr.len (PyStr.slice_to n s) = n `min` PyStr.len s.
Proof.
  unfold PyStr.len.
  revert s; induction n as [|n IH]; intros [|c s]; simpl; try done.
  by rewrite IH.
Qed.

Lemma slice_to_prefix n s : ∃ rest, s = PyStr.slice_to n s +:+ rest.
Proof.
  revert s; induction n as [|n IH]; intros s.
  - exists s. by destruct s.
  - destruct s as [|c s]; [by exists ""|].
    destruct (IH s) as [rest Hrest]. exists rest.
    change (String c s = String c (PyStr.slice_to n s +:+ rest)). by f_equal.
Qed.

Lemma slice_to_short n s : PyStr.len s ≤ n → PyStr.slice_to n s = s.
Proof.
  unfold PyStr.len.
  revert s; induction n as [|n IH]; intros [|c s] Hle; simpl in *; try done.
  - lia.
  - f_equal. apply IH. lia.
Qed.

Lemma lstrip_first s c :
  PyStr.first_char (PyStr.lstrip s) = Some c → PyStr.isspace c = false.
Proof.
  induction s as [|a s IH]; simpl; [done|].
  destruct (PyStr.isspace a) eqn:Ha; [done|].
  simpl. intros [= <-]. done.
Qed.

Lemma rstrip_first s c :
  PyStr.first_char (PyStr.rstrip s) = Some c → PyStr.first_char s = Some c.
Proof.
  destruct s as [|a s]; simpl; [done|].
  destruct (PyStr.isspace a && PyStr.is_empty (PyStr.rstrip s)); by simpl.
Qed.

Lemma rstrip_last s c :
  PyStr.last_char (PyStr.rstrip s) = Some c → PyStr.isspace c = false.
Proof.
  induction s as [|a s IH]; simpl; [done|].
  destruct (PyStr.rstrip s) as [|b r] eqn:Hr.
  - rewrite andb_true_r. destruct (PyStr.isspace a) eqn:Ha; simpl; [done|].
    by intros [= <-].
  - rewrite andb_false_r. simpl. apply IH.
Qed.

(** The result of [strip] neither starts nor ends with whitespace. *)
Lemma strip_first s c :
  PyStr.first_char (PyStr.strip s) = Some c → PyStr.isspace c = false.
Proof. intros H. eapply lstrip_first, rstrip_first, H. Qed.

Lemma strip_last s c :
  PyStr.last_char (PyStr.strip s) = Some c → PyStr.isspace c = false.
Proof. apply rstrip_last. Qed.

Lemma too_short_false s : ner.too_short s = false ↔ 2 ≤ PyStr.len s.
Proof.
  unfold ner.too_short. destruct s as [|a [|b s]]; simpl; split; try done; try lia.
Qed.

End string_facts.

(** ** The loop over the raw spans of one chunk *)

Section dedup.

Variable round : float → nat → float.

Implicit Types (st : list ner.EntityDict.t * gset string).
Implicit Types (s : ner.RawSpan.t) (raw : list ner.RawSpan.t).
Implicit Types (e : ner.EntityDict.t) (k : string).

Lemma step_skip st s :
  ¬ span.survives s ∨ span.key s ∈ st.2 → ner.extract_step round st s = st.
Proof.
  unfold ner.extract_step, span.survives, span.key, span.text.
  intros [Hshort | Hseen].
  - by destruct (ner.too_short _).
  - destruct (ner.too_short _); [done|]. by rewrite bool_decide_eq_true_2.
Qed.

Lemma step_keep st s :
  span.survives s → span.key s ∉ st.2 →
  ner.extract_step round st s
  = (st.1 ++ [span.entity round s], {[ span.key s ]} ∪ st.2).
Proof.
  unfold ner.extract_step, span.survives, span.key, span.text.
  intros -> Hnew. by rewrite bool_decide_eq_false_2.
Qed.

(** Every span is either skipped or kept. *)
Lemma step_cases st s :
  (¬ span.survives s ∨ span.key s ∈ st.2) ∨
  (span.survives s ∧ span.key s ∉ st.2).
Proof.
  unfold span.survives. destruct (ner.too_short (span.text s)); [left; left; done|].
  destruct (decide (span.key s ∈ st.2)); [left; by right | right; done].
Qed.

Lemma foldl_step_cons st s raw :
  foldl (ner.extract_step round) st (s :: raw)
  = foldl (ner.extract_step round) (ner.extract_step round st s) raw.
Proof. reflexivity. Qed.

(** [seen] holds the keys it started with and the keys of the surviving
    spans met so far. *)
Lemma seen_spec raw st k :
  k ∈ (foldl (ner.extract_step round) st raw).2
  ↔ k ∈ st.2 ∨ ∃ s, s ∈ raw ∧ span.survives s ∧ span.key s = k.
Proof.
  revert st; induction raw as [|s raw IH]; intros st.
  - simpl. split; [by left|]. intros [H | (s & Hs & _)]; [done|]. by inversion Hs.
  - rewrite foldl_step_cons, IH.
    destruct (step_cases st s) as [Hskip | [Hlive Hnew]].
    + rewrite (step_skip _ _ Hskip). split.
      * intros [H | (s' & Hs' & H)]; [by left|]. right. exists s'.
        split; [by apply elem_of_cons; right | done].
      * intros [H | (s' & Hs' & Hl & Hk)]; [by left|].
        apply elem_of_cons in Hs' as [-> | Hs'].
        -- left. destruct Hskip as [Hdead | Hseen]; [done | by subst].
        -- right. by exists s'.
    + rewrite (step_keep _ _ Hlive Hnew). simpl. split.
      * intros [H | (s' & Hs' & H)].
        -- apply elem_of_union in H as [H | H]; [|by left].
           apply elem_of_singleton in H. right. exists s.
           split; [by apply elem_of_cons; left | done].
        -- right. exists s'. split; [by apply elem_of_cons; right | done].
      * intros [H | (s' & Hs' & Hl & Hk)]; [left; by apply elem_of_union_r|].
        apply elem_of_cons in Hs' as [-> | Hs'].
        -- left. apply elem_of_union_l. by apply elem_of_singleton.
        -- right. by exists s'.
Qed.

(** [entities] only grows, at its end. *)
Lemma entities_extend raw st :
  ∃ tl, (foldl (ner.extract_step round) st raw).1 = st.1 ++ tl.
Proof.
  revert st; induction raw as [|s raw IH]; intros st.
  - exists []. simpl. by rewrite app_nil_r.
  - rewrite foldl_step_cons. destruct (IH (ner.extract_step round st s)) as [tl Htl].
    rewrite Htl. destruct (step_cases st s) as [Hskip | [Hlive Hnew]].
    + rewrite (step_skip _ _ Hskip). by exists tl.
    + rewrite (step_keep _ _ Hlive Hnew). simpl. rewrite <- app_assoc. by eexists.
Qed.

(** Every entity comes from a surviving span. *)
Lemma entities_origin raw st e :
  e ∈ (foldl (ner.extract_step round) st raw).1 →
  e ∈ st.1 ∨ ∃ s, s ∈ raw ∧ span.survives s ∧ e = span.entity round s.
Proof.
  revert st; induction raw as [|s raw IH]; intros st; [by left|].
  rewrite foldl_step_cons. intros [He | (s' & Hs' & H)]%IH.
  - destruct (step_cases st s) as [Hskip | [Hlive Hnew]].
    + rewrite (step_skip _ _ Hskip) in He. by left.
    + rewrite (step_keep _ _ Hlive Hnew) in He. simpl in He.
      apply elem_of_app in He as [He | He]; [by left|].
      apply list_elem_of_singleton in He as ->. right. exists s.
      split; [by apply elem_of_cons; left | done].
  - right. exists s'. split; [by apply elem_of_cons; right | done].
Qed.

Lemma keys_inv_step st s : keys_inv st → keys_inv (ner.extract_step round st s).
Proof.
  intros [Hnd Hin]. destruct (step_cases st s) as [Hskip | [Hlive Hnew]].
  - by rewrite (step_skip _ _ Hskip).
  - rewrite (step_keep _ _ Hlive Hnew). split; simpl.
    + rewrite fmap_app. apply NoDup_app. split; [done|]. split.
      * intros k Hk Hk'. apply list_elem_of_singleton in Hk'. subst k.
        apply list_elem_of_fmap in Hk as (e & He & Hine).
        apply Hnew. change (entity_key (span.entity round s)) with (span.key s) in He.
        rewrite He. by apply Hin.
      * apply NoDup_singleton.
    + intros e [He | He]%elem_of_app.
      * apply elem_of_union_r. by apply Hin.
      * apply list_elem_of_singleton in He as ->. apply elem_of_union_l.
        by apply elem_of_singleton.
Qed.

Lemma keys_inv_foldl raw st :
  keys_inv st → keys_inv (foldl (ner.extract_step round) st raw).
Proof.
  revert st; induction raw as [|s raw IH]; intros st Hst; [done|].
  rewrite foldl_step_cons. by apply IH, keys_inv_step.
Qed.

Lemma chunk_entities_keys_NoDup raw :
  NoDup (entity_key <$> ner.chunk_entities round raw).
Proof.
  apply (keys_inv_foldl raw ([], ∅)). split; [constructor|]. intros e He. by inversion He.
Qed.

Lemma chunk_entities_app raw1 raw2 :
  ner.chunk_entities round (raw1 ++ raw2)
  = (foldl (ner.extract_step round)
       (foldl (ner.extract_step round) ([], ∅) raw1) raw2).1.
Proof. unfold ner.chunk_entities. by rewrite foldl_app. Qed.

End dedup.

(** ** The loop over the chunks *)

Section extract_facts.

Variable round : float → nat → float.

Lemma extract_loop_spec self texts results :
  ner.extract_loop round self texts results
  = Log (results ++ (chunk_result round self <$> texts)) (pipeline_calls texts).
Proof.
  revert results; induction texts as [|text texts IH]; intros results.
  - simpl. by rewrite app_nil_r.
  - simpl. unfold mbind, Logged_bind. simpl. rewrite IH. simpl.
    by rewrite <- app_assoc.
Qed.

Lemma extract_spec self texts :
  ner.extract round self texts
  = Log (chunk_result round self <$> texts)
        (EntityExtractor_extract_call texts :: pipeline_calls texts).
Proof.
  unfold ner.extract, mbind, Logged_bind. simpl. by rewrite extract_loop_spec.
Qed.

Lemma collect_spec items st :
  foldl routes_entities.collect_step st items
  = (st.1 ++ (to_ChunkEntities <$> items),
     st.2 + sum_list ((λ item, length (ner.ChunkDict.entities item)) <$> items)).
Proof.
  revert st; induction items as [|item items IH]; intros [res tot]; simpl.
  - by rewrite app_nil_r, Nat.add_0_r.
  - rewrite IH. simpl. rewrite <- app_assoc, length_map, Nat.add_assoc. done.
Qed.

End extract_facts.

Section chunk_facts.

Variable round : float → nat → float.

Lemma extract_lookup self texts i :
  result (ner.extract round self texts) !! i
  = chunk_result round self <$> texts !! i.
Proof. rewrite extract_spec. simpl. apply list_lookup_fmap. Qed.

Lemma span_key_of_pair s : span.key s = key_of_pair (span.pair s).
Proof. reflexivity. Qed.

Lemma chunk_entities_pairs_NoDup raw :
  NoDup (entity_pair <$> ner.chunk_entities round raw).
Proof.
  apply (NoDup_fmap_1 key_of_pair). rewrite <- list_fmap_compose.
  apply chunk_entities_keys_NoDup.
Qed.

(** A span that is skipped leaves no trace in the chunk's entities. *)
Lemma chunk_entities_skip l1 s l2 :
  ¬ span.survives s
  ∨ (∃ s', s' ∈ l1 ∧ span.survives s' ∧ span.key s' = span.key s) →
  ner.chunk_entities round (l1 ++ s :: l2) = ner.chunk_entities round (l1 ++ l2).
Proof.
  intros H. rewrite !chunk_entities_app, foldl_step_cons, step_skip; [done|].
  destruct H as [H | H]; [by left | right].
  apply seen_spec. by right.
Qed.

(** A surviving span whose key is new is appended to the entities built from
    the spans before it. *)
Lemma chunk_entities_keep l1 s l2 :
  span.survives s →
  (∀ s', s' ∈ l1 → span.survives s' → span.key s' ≠ span.key s) →
  ∃ tl, ner.chunk_entities round (l1 ++ s :: l2)
        = ner.chunk_entities round l1 ++ span.entity round s :: tl.
Proof.
  intros Hlive Hfresh. rewrite chunk_entities_app, foldl_step_cons.
  rewrite step_keep; [|done|].
  - destruct (entities_extend round l2
      ((foldl (ner.extract_step round) ([], ∅) l1).1 ++ [span.entity round s],
       {[span.key s]} ∪ (foldl (ner.extract_step round) ([], ∅) l1).2))
      as [tl Htl].
    exists tl. rewrite Htl. simpl. by rewrite <- app_assoc.
  - intros [Hin | (s' & Hs' & Hl & Hk)]%seen_spec; [by inversion Hin|].
    by apply (Hfresh s').
Qed.

End chunk_facts.

(** ** Entity extraction: de-duplication (C3, C10) *)

(** X13.  For every chunk given to [EntityExtractor.extract], no two
    entities of the chunk's result share the pair (lower-cased cleaned text,
    label), and a span with the pair of an earlier span that passed the
    length filter is dropped: the result is what it would be without that
    span. *)
Theorem X13_pair_never_twice round self texts i text :
  texts !! i = Some text →
  let raw := ner.run (ner.pipe self) (PyStr.slice_to 2048 text) in
  ∃ chunk,
    result (ner.extract round self texts) !! i = Some chunk ∧
    ner.ChunkDict.entities chunk = ner.chunk_entities round raw ∧
    NoDup (entity_pair <$> ner.ChunkDict.entities chunk) ∧
    ∀ l1 s l2, raw = l1 ++ s :: l2 →
      (∃ s', s' ∈ l1 ∧ span.survives s' ∧ span.pair s' = span.pair s) →
      ner.ChunkDict.entities chunk = ner.chunk_entities round (l1 ++ l2).
Proof.
  intros Hi raw. exists (chunk_result round self text). split.
  { rewrite extract_lookup, Hi. done. }
  split; [done|]. split; [apply chunk_entities_pairs_NoDup|].
  intros l1 s l2 Hraw (s' & Hs' & Hl & Hp).
  change (ner.ChunkDict.entities (chunk_result round self text))
    with (ner.chunk_entities round raw).
  rewrite Hraw. apply chunk_entities_skip. right.
  exists s'. by rewrite !span_key_of_pair, Hp.
Qed.

Lemma X13_pair_never_twice_witness :
  ["hello"] !! 0 = Some "hello" ∧
  ∃ chunk,
    result (ner.extract demo.round (main.entity_extractor demo.state) ["hello"]) !! 0
    = Some chunk ∧
    NoDup (entity_pair <$> ner.ChunkDict.entities chunk) ∧
    ner.ChunkDict.entities chunk
    = ner.chunk_entities demo.round
        [demo.mk_span "hello" "MISC"; demo.mk_span " Microsoft" "ORG"].
Proof.
  split; [reflexivity|].
  destruct (X13_pair_never_twice demo.round (main.entity_extractor demo.state)
              ["hello"] 0 "hello" eq_refl)
    as (chunk & Hres & _ & Hnd & Hspans).
  exists chunk. split; [exact Hres|]. split; [exact Hnd|].
  apply (Hspans [demo.mk_span "hello" "MISC"; demo.mk_span " Microsoft" "ORG"]
           (demo.mk_span "##microsoft" "ORG") []); [reflexivity|].
  exists (demo.mk_span " Microsoft" "ORG"). split; [|split; reflexivity].
  apply elem_of_cons; right. apply elem_of_cons; left. reflexivity.
Defined.

(** C3 at a failing input.  The model reports "aa|b" labelled "C", then "aa"
    labelled "b|C" twice.  The second span passes the length filter and is
    the first span of its pair, so it is the one to keep; but the string of
    line 67 is "aa|b|C" for it as for the first span, whose pair is another,
    and the result of [extract] holds the first span's entity only. *)
Lemma C3_first_of_pair_not_kept :
  ner.run demo.bar_pipeline (PyStr.slice_to 2048 "x")
  = [demo.mk_span "aa|b" "C"; demo.mk_span "aa" "b|C"; demo.mk_span "aa" "b|C"] ∧
  span.survives (demo.mk_span "aa" "b|C") ∧
  span.pair (demo.mk_span "aa|b" "C") ≠ span.pair (demo.mk_span "aa" "b|C") ∧
  span.key (demo.mk_span "aa|b" "C") = span.key (demo.mk_span "aa" "b|C") ∧
  result (ner.extract demo.round demo.bar_extractor ["x"])
  = [ {| ner.ChunkDict.text := "x";
         ner.ChunkDict.entities :=
           [span.entity demo.round (demo.mk_span "aa|b" "C")] |} ] ∧
  span.entity demo.round (demo.mk_span "aa" "b|C")
  ∉ [span.entity demo.round (demo.mk_span "aa|b" "C")].
Proof.
  split; [reflexivity|]. split; [reflexivity|]. split; [vm_compute; discriminate|].
  split; [reflexivity|]. split; [vm_compute; reflexivity|].
  intros H%list_elem_of_singleton. vm_compute in H. discriminate.
Qed.

(** C10, as amended.  The key is the lower-cased cleaned text, a bar and the
    label; it is the same string for the distinct pairs ("a|b", "C") and
    ("a", "b|C"), and there is a raw output of two spans with distinct pairs
    whose second span is dropped as a duplicate although it is kept when it
    comes alone: text "aa|b" with label "C", then text "aa" with label
    "b|C". *)
Theorem C10_key_not_injective round :
  (∀ word label, ner.dedup_key word label = PyStr.lower word +:+ "|" +:+ label) ∧
  (ner.dedup_key "a|b" "C" = ner.dedup_key "a" "b|C" ∧
   (PyStr.lower "a|b", "C") ≠ (PyStr.lower "a", "b|C")) ∧
  ∃ s1 s2,
    s1 = demo.mk_span "aa|b" "C" ∧ s2 = demo.mk_span "aa" "b|C" ∧
    span.pair s1 ≠ span.pair s2 ∧
    span.key s1 = span.key s2 ∧
    span.dropped_as_duplicate round [s1] s2 ∧
    ner.chunk_entities round [s1; s2] = [span.entity round s1] ∧
    ner.chunk_entities round [s2] = [span.entity round s2].
Proof.
  split; [reflexivity|]. split; [split; [reflexivity | vm_compute; discriminate]|].
  eexists _, _. split; [reflexivity|]. split; [reflexivity|].
  split; [vm_compute; discriminate|]. split; [reflexivity|].
  split; [|split; reflexivity].
  split; [reflexivity|]. apply seen_spec. right.
  exists (demo.mk_span "aa|b" "C"). split; [|split; reflexivity].
  by apply list_elem_of_singleton.
Qed.

(** C10, as stated, fails at its own example: the span with text "a" is
    removed by the noise filter (its cleaned text has one character), so it
    never reaches the membership test, whether it comes after or before the
    span "a|b"; alone it is dropped as well, and coming first it leaves the
    other span in the result. *)
Lemma C10_example_is_filtered_not_deduplicated :
  ner.too_short (span.text (demo.mk_span "a" "b|C")) = true ∧
  ¬ span.dropped_as_duplicate demo.round
      [demo.mk_span "a|b" "C"] (demo.mk_span "a" "b|C") ∧
  ner.chunk_entities demo.round [demo.mk_span "a" "b|C"] = [] ∧
  ¬ span.dropped_as_duplicate demo.round
      [demo.mk_span "a" "b|C"] (demo.mk_span "a|b" "C") ∧
  ner.chunk_entities demo.round [demo.mk_span "a" "b|C"; demo.mk_span "a|b" "C"]
  = [span.entity demo.round (demo.mk_span "a|b" "C")].
Proof.
  split; [reflexivity|]. split; [intros [Hlive _]; vm_compute in Hlive; discriminate|].
  split; [reflexivity|]. split; [|reflexivity].
  intros [_ Hseen]. apply seen_spec in Hseen as [H | (s & Hs & Hlive & _)].
  - by apply not_elem_of_empty in H.
  - apply list_elem_of_singleton in Hs. subst s. vm_compute in Hlive. discriminate.
Qed.

(** ** Entity extraction: cleaning and the noise filter (C8) *)

(** C8.  Every entity of a chunk's result comes from a raw span of that
    chunk's model output; its text is the span's word stripped, freed of one
    leading "##" and stripped again, so it neither starts nor ends with
    whitespace, and it has at least 2 characters.  A span whose cleaned text
    has fewer than 2 characters is discarded: the result is what it would be
    without that span. *)
Theorem C8_clean_and_filter round self texts i text :
  texts !! i = Some text →
  let raw := ner.run (ner.pipe self) (PyStr.slice_to 2048 text) in
  ∃ chunk,
    result (ner.extract round self texts) !! i = Some chunk ∧
    (∀ e, e ∈ ner.ChunkDict.entities chunk →
       (∃ s, s ∈ raw ∧
          ner.EntityDict.text e
          = PyStr.strip (PyStr.sub_leading_marker (PyStr.strip (ner.RawSpan.word s))) ∧
          ner.EntityDict.label e = ner.RawSpan.entity_group s ∧
          ner.EntityDict.score e = round (ner.RawSpan.score s) 4) ∧
       2 ≤ PyStr.len (ner.EntityDict.text e) ∧
       (∀ c, PyStr.first_char (ner.EntityDict.text e) = Some c → PyStr.isspace c = false) ∧
       (∀ c, PyStr.last_char (ner.EntityDict.text e) = Some c → PyStr.isspace c = false)) ∧
    (∀ l1 s l2, raw = l1 ++ s :: l2 →
       PyStr.len (PyStr.strip (PyStr.sub_leading_marker
                                 (PyStr.strip (ner.RawSpan.word s)))) < 2 →
       ner.ChunkDict.entities chunk = ner.chunk_entities round (l1 ++ l2)) ∧
    (∀ rest, PyStr.sub_leading_marker ("##" +:+ rest) = rest).
Proof.
  intros Hi raw. exists (chunk_result round self text). split.
  { rewrite extract_lookup, Hi. done. }
  change (ner.ChunkDict.entities (chunk_result round self text))
    with (ner.chunk_entities round raw).
  split; [|split; [|done]].
  - intros e He. apply entities_origin in He as [He | (s & Hs & Hlive & ->)].
    { by inversion He. }
    split; [by exists s|]. split; [by apply too_short_false|].
    split; intros c; [apply strip_first | apply strip_last].
  - intros l1 s l2 -> Hlen. apply chunk_entities_skip. left.
    intros Hlive%too_short_false. unfold span.text, ner.clean_word in Hlive. lia.
Qed.

Lemma C8_clean_and_filter_witness :
  ["a"] !! 0 = Some "a" ∧
  ∃ chunk,
    result (ner.extract demo.round (main.entity_extractor demo.state) ["a"]) !! 0
    = Some chunk ∧
    span.entity demo.round (demo.mk_span " Microsoft" "ORG")
    ∈ ner.ChunkDict.entities chunk ∧
    2 ≤ PyStr.len "Microsoft" ∧
    PyStr.len (PyStr.strip (PyStr.sub_leading_marker (PyStr.strip "a"))) < 2 ∧
    ner.ChunkDict.entities chunk
    = ner.chunk_entities demo.round
        [demo.mk_span " Microsoft" "ORG"; demo.mk_span "##microsoft" "ORG"].
Proof.
  split; [reflexivity|].
  destruct (C8_clean_and_filter demo.round (main.entity_extractor demo.state)
              ["a"] 0 "a" eq_refl)
    as (chunk & Hres & Hents & Hdrop & _).
  assert (Hin : span.entity demo.round (demo.mk_span " Microsoft" "ORG")
                ∈ ner.ChunkDict.entities chunk).
  { rewrite extract_lookup in Hres. injection Hres as <-.
    apply elem_of_cons; left. reflexivity. }
  assert (Hshort :
    PyStr.len (PyStr.strip (PyStr.sub_leading_marker (PyStr.strip "a"))) < 2).
  { vm_compute. constructor. }
  exists chunk. split; [exact Hres|]. split; [exact Hin|].
  split; [exact (proj1 (proj2 (Hents _ Hin)))|]. split; [exact Hshort|].
  exact (Hdrop [] (demo.mk_span "a" "MISC")
           [demo.mk_span " Microsoft" "ORG"; demo.mk_span "##microsoft" "ORG"]
           eq_refl Hshort).
Defined.

(** ** Entity extraction: truncation (C4) *)

(** C4.  [EntityExtractor.extract] runs the model on the first 2048
    characters of every chunk, in order, and echoes exactly that truncated
    text in the chunk's result, whose entities are those of the model output
    for the truncated text; the echoed text has at most 2048 characters. *)
Theorem C4_truncate_before_inference round self texts :
  calls (ner.extract round self texts)
  = EntityExtractor_extract_call texts
    :: ((λ text, Pipeline_call (PyStr.slice_to 2048 text)) <$> texts) ∧
  ner.ChunkDict.text <$> result (ner.extract round self texts)
  = PyStr.slice_to 2048 <$> texts ∧
  ner.ChunkDict.entities <$> result (ner.extract round self texts)
  = (λ text, ner.chunk_entities round
               (ner.run (ner.pipe self) (PyStr.slice_to 2048 text))) <$> texts ∧
  Forall (λ chunk, PyStr.len (ner.ChunkDict.text chunk) ≤ 2048)
         (result (ner.extract round self texts)) ∧
  ∀ text,
    PyStr.len (PyStr.slice_to 2048 text) = 2048 `min` PyStr.len text ∧
    (∃ rest, text = PyStr.slice_to 2048 text +:+ rest) ∧
    (PyStr.len text ≤ 2048 → PyStr.slice_to 2048 text = text).
Proof.
  rewrite extract_spec. cbn [result calls]. split; [done|].
  split; [by rewrite <- list_fmap_compose|].
  split; [by rewrite <- list_fmap_compose|]. split.
  - apply Forall_fmap, Forall_forall. intros text _.
    change (PyStr.len (PyStr.slice_to 2048 text) ≤ 2048).
    rewrite slice_to_len. lia.
  - intros text. split; [apply slice_to_len|].
    split; [apply slice_to_prefix | apply slice_to_short].
Qed.

(** ** POST /extract-entities (C7) *)

Lemma post_entities_valid round state chunks :
  chunks ≠ [] →
  routes_entities.post round state chunks
  = Log (Ok200
           {| routes_entities.ExtractEntitiesResponse.results :=
                to_ChunkEntities
                <$> (chunk_result round (main.entity_extractor state) <$> chunks);
              routes_entities.ExtractEntitiesResponse.total_entities :=
                sum_list ((λ item, length (ner.ChunkDict.entities item))
                          <$> (chunk_result round (main.entity_extractor state)
                               <$> chunks)) |})
        (EntityExtractor_extract_call chunks :: pipeline_calls chunks).
Proof.
  destruct chunks as [|c cs]; [done|]. intros _.
  unfold routes_entities.post, routes_entities.extract_entities.
  change (routes_entities.ExtractEntitiesRequest.validate (c :: cs))
    with (inr (B := routes_entities.ExtractEntitiesRequest.t)
              (A := list ValidationError.t)
              {| routes_entities.ExtractEntitiesRequest.chunks := c :: cs |}).
  unfold mbind, Logged_bind, mret, Logged_ret. rewrite extract_spec.
  cbn [result calls routes_entities.ExtractEntitiesRequest.chunks].
  rewrite collect_spec. cbn [fst snd]. by rewrite !app_nil_r.
Qed.

(** C7.  A valid request (at least one chunk) is answered with one result
    per chunk, in the order of the chunks: the i-th result echoes the
    truncated i-th chunk and carries the entities extracted from it; and
    [total_entities] is the sum of the lengths of the results' entity
    lists. *)
Theorem C7_results_and_total round state chunks :
  chunks ≠ [] →
  ∃ resp,
    result (routes_entities.post round state chunks) = Ok200 resp ∧
    length (routes_entities.ExtractEntitiesResponse.results resp) = length chunks ∧
    (∀ i chunk, chunks !! i = Some chunk →
       ∃ r, routes_entities.ExtractEntitiesResponse.results resp !! i = Some r ∧
            routes_entities.ChunkEntities.text r = PyStr.slice_to 2048 chunk ∧
            routes_entities.ChunkEntities.entities r
            = routes_entities.to_Entity
              <$> ner.chunk_entities round
                    (ner.run (ner.pipe (main.entity_extractor state))
                             (PyStr.slice_to 2048 chunk))) ∧
    routes_entities.ExtractEntitiesResponse.total_entities resp
    = sum_list ((λ r, length (routes_entities.ChunkEntities.entities r))
                <$> routes_entities.ExtractEntitiesResponse.results resp).
Proof.
  intros Hne. rewrite (post_entities_valid _ _ _ Hne). eexists. split; [done|].
  cbn [routes_entities.ExtractEntitiesResponse.results
       routes_entities.ExtractEntitiesResponse.total_entities].
  split; [by rewrite !length_fmap|]. split.
  - intros i chunk Hi. eexists. rewrite !list_lookup_fmap, Hi. done.
  - rewrite <- !list_fmap_compose. apply (f_equal sum_list).
    apply list_fmap_ext. intros _ chunk _. unfold compose, to_ChunkEntities.
    cbn [routes_entities.ChunkEntities.entities]. by rewrite length_fmap.
Qed.

Lemma C7_results_and_total_witness :
  ["hello"; "a"] ≠ [] ∧
  ∃ resp,
    result (routes_entities.post demo.round demo.state ["hello"; "a"]) = Ok200 resp ∧
    length (routes_entities.ExtractEntitiesResponse.results resp) = 2 ∧
    routes_entities.ExtractEntitiesResponse.total_entities resp
    = sum_list ((λ r, length (routes_entities.ChunkEntities.entities r))
                <$> routes_entities.ExtractEntitiesResponse.results resp).
Proof.
  assert (Hne : ["hello"; "a"] ≠ @nil string) by discriminate.
  split; [exact Hne|].
  destruct (C7_results_and_total demo.round demo.state ["hello"; "a"] Hne)
    as (resp & Hres & Hlen & _ & Htot).
  exists resp. split; [exact Hres|]. split; [exact Hlen | exact Htot].
Defined.

(** ** POST /embed (C1, C9) *)

Lemma post_embed_valid state texts :
  texts ≠ [] →
  routes_embed.post state texts
  = Log (Ok200
           {| routes_embed.EmbedResponse.embeddings :=
                embedder.encode (embedder.model (main.embedder state)) texts;
              routes_embed.EmbedResponse.dimension :=
                embedder.dimension (main.embedder state);
              routes_embed.EmbedResponse.count :=
                length (embedder.encode (embedder.model (main.embedder state))
                                        texts) |})
        [Embedder_embed_call texts; SentenceTransformer_encode_call texts].
Proof. destruct texts as [|t ts]; [done|]. reflexivity. Qed.

(** C1.  When the model encodes each text on its own, a request with at
    least one text is answered with the vectors of the texts in input order;
    [count] is the number of texts and the number of vectors, and
    [dimension] is the embedding dimension read from the model when the
    wrapper was constructed. *)
Theorem C1_embed_count_order_dimension st ce pl encode_one texts :
  encodes_each st encode_one →
  texts ≠ [] →
  ∃ resp,
    routes_embed.post (main.lifespan st ce pl) texts
    = Log (Ok200 resp)
          [Embedder_embed_call texts; SentenceTransformer_encode_call texts] ∧
    routes_embed.EmbedResponse.count resp = length texts ∧
    routes_embed.EmbedResponse.count resp
    = length (routes_embed.EmbedResponse.embeddings resp) ∧
    (∀ i, routes_embed.EmbedResponse.embeddings resp !! i
          = encode_one <$> texts !! i) ∧
    routes_embed.EmbedResponse.dimension resp
    = embedder.get_sentence_embedding_dimension st.
Proof.
  intros Henc Hne. rewrite (post_embed_valid _ _ Hne). eexists. split; [done|].
  cbn. rewrite Henc, length_fmap. split; [done|]. split; [done|].
  split; [|done]. intros i. rewrite Henc. apply list_lookup_fmap.
Qed.

Lemma C1_embed_count_order_dimension_witness :
  encodes_each demo.sentence_transformer demo.encode_one ∧
  ["hello"; "world"] ≠ [] ∧
  ∃ resp,
    result (routes_embed.post demo.state ["hello"; "world"]) = Ok200 resp ∧
    routes_embed.EmbedResponse.count resp = 2 ∧
    routes_embed.EmbedResponse.dimension resp = 2.
Proof.
  assert (Henc : encodes_each demo.sentence_transformer demo.encode_one).
  { intros texts. reflexivity. }
  assert (Hne : ["hello"; "world"] ≠ @nil string) by discriminate.
  split; [exact Henc|]. split; [exact Hne|].
  destruct (C1_embed_count_order_dimension demo.sentence_transformer
              demo.cross_encoder demo.pipeline demo.encode_one
              ["hello"; "world"] Henc Hne)
    as (resp & Hpost & Hcount & _ & _ & Hdim).
  exists resp. split; [exact (f_equal result Hpost)|].
  split; [exact Hcount | exact Hdim].
Defined.

(** C9, as amended.  A request whose [texts] list contains an empty string
    passes validation: the handler runs, and the list, empty strings
    included, is handed unchanged to the Embedder wrapper and by it to the
    model.  Only the empty list is rejected, with an error naming [texts],
    before the wrapper is invoked. *)
Theorem C9_empty_string_element_accepted state texts :
  "" ∈ texts →
  (∃ resp,
     routes_embed.post state texts
     = Log (Ok200 resp)
           [Embedder_embed_call texts; SentenceTransformer_encode_call texts] ∧
     routes_embed.EmbedResponse.embeddings resp
     = embedder.encode (embedder.model (main.embedder state)) texts) ∧
  routes_embed.post state []
  = Log (UnprocessableEntity422
           [ {| ValidationError.loc := "texts";
                ValidationError.min_length := 1;
                ValidationError.actual_length := 0 |} ])
        [].
Proof.
  intros Hin. split; [|reflexivity].
  assert (Hne : texts ≠ []). { intros ->. by inversion Hin. }
  rewrite (post_embed_valid _ _ Hne). eexists. split; done.
Qed.

Lemma C9_empty_string_element_accepted_witness :
  "" ∈ ["hello"; ""] ∧
  ∃ resp,
    routes_embed.post demo.state ["hello"; ""]
    = Log (Ok200 resp)
          [Embedder_embed_call ["hello"; ""];
           SentenceTransformer_encode_call ["hello"; ""]].
Proof.
  assert (Hin : "" ∈ ["hello"; ""]).
  { apply elem_of_cons; right. apply elem_of_cons; left. reflexivity. }
  split; [exact Hin|].
  destruct (C9_empty_string_element_accepted demo.state ["hello"; ""] Hin)
    as [(resp & Hpost & _) _].
  exists resp. exact Hpost.
Defined.

(** C9, as stated, fails: the request [{texts: [""]}] is not rejected; it is
    answered 200 and both the Embedder wrapper and the model are invoked on
    the list holding the empty string. *)
Lemma C9_empty_string_element_not_rejected :
  "" ∈ [""] ∧
  routes_embed.post demo.state [""]
  = Log (Ok200 {| routes_embed.EmbedResponse.embeddings := [[0%float; 1%float]];
                  routes_embed.EmbedResponse.dimension := 2;
                  routes_embed.EmbedResponse.count := 1 |})
        [Embedder_embed_call [""]; SentenceTransformer_encode_call [""]].
Proof.
  split; [by apply list_elem_of_singleton|]. vm_compute. reflexivity.
Qed.

(** ** The Reranker wrapper and POST /rerank (C2, C5, C6) *)

Lemma rerank_nonempty self query documents :
  documents ≠ [] →
  reranker.rerank self query documents
  = Log (reranker.predict (reranker.model self) ((λ doc, (query, doc)) <$> documents))
        [Reranker_rerank_call query documents;
         CrossEncoder_predict_call ((λ doc, (query, doc)) <$> documents)].
Proof. destruct documents as [|d ds]; [done|]. reflexivity. Qed.

Lemma post_rerank_valid state query documents :
  query ≠ "" → documents ≠ [] →
  routes_rerank.post state query documents
  = Log (Ok200
           {| routes_rerank.RerankResponse.scores :=
                reranker.predict (reranker.model (main.reranker state))
                                 ((λ doc, (query, doc)) <$> documents);
              routes_rerank.RerankResponse.count :=
                length (reranker.predict (reranker.model (main.reranker state))
                                         ((λ doc, (query, doc)) <$> documents)) |})
        [Reranker_rerank_call query documents;
         CrossEncoder_predict_call ((λ doc, (query, doc)) <$> documents)].
Proof.
  destruct query as [|c q]; [done|]. destruct documents as [|d ds]; [done|].
  reflexivity.
Qed.

(** C2.  When the cross-encoder scores each pair on its own, a valid request
    is answered with the scores of the pairs (query, document) taken in the
    order of the documents: the model is called once, on these pairs; there
    are as many scores as documents, [count] is that number, the i-th score
    is the score of the i-th document, and equal documents get equal
    scores. *)
Theorem C2_rerank_scores_follow_documents state score query documents :
  scores_each (reranker.model (main.reranker state)) score →
  query ≠ "" →
  documents ≠ [] →
  ∃ resp,
    routes_rerank.post state query documents
    = Log (Ok200 resp)
          [Reranker_rerank_call query documents;
           CrossEncoder_predict_call ((λ doc, (query, doc)) <$> documents)] ∧
    routes_rerank.RerankResponse.scores resp
    = (λ doc, score (query, doc)) <$> documents ∧
    length (routes_rerank.RerankResponse.scores resp) = length documents ∧
    routes_rerank.RerankResponse.count resp = length documents ∧
    (∀ i doc, documents !! i = Some doc →
       routes_rerank.RerankResponse.scores resp !! i = Some (score (query, doc))) ∧
    (∀ i j doc, documents !! i = Some doc → documents !! j = Some doc →
       routes_rerank.RerankResponse.scores resp !! i
       = routes_rerank.RerankResponse.scores resp !! j).
Proof.
  intros Hscore Hq Hd.
  rewrite (post_rerank_valid _ _ _ Hq Hd), Hscore, <- list_fmap_compose.
  eexists. split; [reflexivity|].
  cbn [routes_rerank.RerankResponse.scores routes_rerank.RerankResponse.count].
  rewrite length_fmap. split; [done|]. split; [done|]. split; [done|].
  split.
  - intros i doc Hi. by rewrite list_lookup_fmap, Hi.
  - intros i j doc Hi Hj. by rewrite !list_lookup_fmap, Hi, Hj.
Qed.

Lemma C2_rerank_scores_follow_documents_witness :
  scores_each (reranker.model (main.reranker demo.state)) demo.score_pair ∧
  "paris" ≠ "" ∧
  ["paris"; "banana"; "paris"] ≠ [] ∧
  ∃ resp,
    result (routes_rerank.post demo.state "paris" ["paris"; "banana"; "paris"])
    = Ok200 resp ∧
    routes_rerank.RerankResponse.count resp = 3 ∧
    routes_rerank.RerankResponse.scores resp !! 0
    = routes_rerank.RerankResponse.scores resp !! 2.
Proof.
  assert (Hscore : scores_each (reranker.model (main.reranker demo.state))
                               demo.score_pair).
  { intros pairs. reflexivity. }
  assert (Hq : "paris" ≠ "") by discriminate.
  assert (Hd : ["paris"; "banana"; "paris"] ≠ @nil string) by discriminate.
  split; [exact Hscore|]. split; [exact Hq|]. split; [exact Hd|].
  destruct (C2_rerank_scores_follow_documents demo.state demo.score_pair
              "paris" ["paris"; "banana"; "paris"] Hscore Hq Hd)
    as (resp & Hpost & _ & _ & Hcount & _ & Hsame).
  exists resp. split; [exact (f_equal result Hpost)|].
  split; [exact Hcount|]. exact (Hsame 0 2 "paris" eq_refl eq_refl).
Defined.

(** C5.  A request with an empty [documents] list is rejected by validation
    with an error naming [documents]; neither the Reranker wrapper nor the
    model is invoked, and the answer is never a 200 response, let alone one
    with an empty score list. *)
Theorem C5_empty_documents_rejected state query :
  ∃ errors,
    routes_rerank.post state query [] = Log (UnprocessableEntity422 errors) [] ∧
    {| ValidationError.loc := "documents";
       ValidationError.min_length := 1;
       ValidationError.actual_length := 0 |} ∈ errors ∧
    ∀ resp, result (routes_rerank.post state query []) ≠ Ok200 resp.
Proof.
  destruct query as [|c q].
  - eexists. split; [reflexivity|]. split; [|done].
    apply elem_of_cons; right. by apply elem_of_cons; left.
  - eexists. split; [reflexivity|]. split; [|done].
    by apply elem_of_cons; left.
Qed.

(** C6.  Called directly with no document, [Reranker.rerank] returns the
    empty list; the only call recorded is the call of the wrapper itself, so
    the cross-encoder is not invoked. *)
Theorem C6_rerank_empty_short_circuit self query :
  reranker.rerank self query [] = Log [] [Reranker_rerank_call query []] ∧
  ∀ pairs, CrossEncoder_predict_call pairs ∉ calls (reranker.rerank self query []).
Proof.
  split; [reflexivity|]. intros pairs H.
  apply list_elem_of_singleton in H. discriminate.
Qed.

(** * Further properties of the service *)

(** ** Validation of the three request models *)

(** X1.  POST /extract-entities is rejected exactly when [chunks] is empty;
    the rejection names [chunks] and invokes nothing.  An accepted request
    calls the wrapper once and then the pipeline once per chunk. *)
Theorem X1_extract_entities_rejected_iff_empty round state chunks :
  (chunks = [] ↔
   ∃ errors, result (routes_entities.post round state chunks)
             = UnprocessableEntity422 errors) ∧
  (chunks = [] →
   routes_entities.post round state chunks
   = Log (UnprocessableEntity422
            [ {| ValidationError.loc := "chunks";
                 ValidationError.min_length := 1;
                 ValidationError.actual_length := 0 |} ]) []) ∧
  (chunks ≠ [] →
   calls (routes_entities.post round state chunks)
   = EntityExtractor_extract_call chunks
     :: ((λ chunk, Pipeline_call (PyStr.slice_to 2048 chunk)) <$> chunks) ∧
   length (calls (routes_entities.post round state chunks)) = S (length chunks)).
Proof.
  split; [|split].
  - split.
    + intros ->. by eexists.
    + intros [errors Herr]. destruct chunks as [|c cs]; [done|].
      rewrite post_entities_valid in Herr; done.
  - by intros ->.
  - intros Hne. rewrite (post_entities_valid _ _ _ Hne). cbn [calls].
    split; [done|]. unfold pipeline_calls. by rewrite length_cons, length_fmap.
Qed.

(** X2.  POST /rerank is rejected exactly when the query is the empty string
    or [documents] is empty.  The rejection invokes nothing and carries one
    error per violated field and no other: both fields are reported when
    both are empty. *)
Theorem X2_rerank_rejected_iff state query documents :
  ((query = "" ∨ documents = []) ↔
   ∃ errors, result (routes_rerank.post state query documents)
             = UnprocessableEntity422 errors) ∧
  ∀ errors,
    result (routes_rerank.post state query documents)
    = UnprocessableEntity422 errors →
    calls (routes_rerank.post state query documents) = [] ∧
    errors
    = (if decide (query = "")
       then [ {| ValidationError.loc := "query";
                 ValidationError.min_length := 1;
                 ValidationError.actual_length := 0 |} ]
       else [])
      ++ (if decide (documents = [])
          then [ {| ValidationError.loc := "documents";
                    ValidationError.min_length := 1;
                    ValidationError.actual_length := 0 |} ]
          else []).
Proof.
  split.
  - split.
    + intros [-> | ->].
      * destruct documents; by eexists.
      * destruct query; by eexists.
    + intros [errors Herr]. destruct query as [|c q]; [by left|].
      destruct documents as [|d ds]; [by right|].
      rewrite post_rerank_valid in Herr by done. discriminate Herr.
  - intros errors Herr. destruct query as [|c q], documents as [|d ds].
    4: { rewrite post_rerank_valid in Herr by done. discriminate Herr. }
    all: cbv in Herr; injection Herr as <-; split; [reflexivity|].
    all: by repeat case_decide.
Qed.

(** X3.  Whatever the embedding model returns, a 200 answer of POST /embed
    was given to a non-empty [texts] list, carries the model's output for
    exactly that list, and its [count] is the number of vectors it carries;
    the model was called once. *)
Theorem X3_embed_ok_response state texts resp :
  result (routes_embed.post state texts) = Ok200 resp →
  texts ≠ [] ∧
  routes_embed.EmbedResponse.embeddings resp
  = embedder.encode (embedder.model (main.embedder state)) texts ∧
  routes_embed.EmbedResponse.count resp
  = length (routes_embed.EmbedResponse.embeddings resp) ∧
  routes_embed.EmbedResponse.dimension resp
  = embedder.dimension (main.embedder state) ∧
  calls (routes_embed.post state texts)
  = [Embedder_embed_call texts; SentenceTransformer_encode_call texts].
Proof.
  destruct texts as [|t ts]; [intros H; discriminate H|].
  rewrite post_embed_valid by done. cbn [result calls]. intros [= <-]. done.
Qed.

Lemma X3_embed_ok_response_witness :
  ∃ resp,
    result (routes_embed.post demo.state ["hello"]) = Ok200 resp ∧
    routes_embed.EmbedResponse.count resp
    = length (routes_embed.EmbedResponse.embeddings resp).
Proof.
  eexists. split; [reflexivity|].
  exact (proj1 (proj2 (proj2
    (X3_embed_ok_response demo.state ["hello"] _ eq_refl)))).
Defined.

(** X4.  Whatever the cross-encoder returns, a 200 answer of POST /rerank
    was given to a non-empty query and a non-empty [documents] list, carries
    the model's output for the pairs (query, document), and its [count] is
    the number of scores it carries. *)
Theorem X4_rerank_ok_response state query documents resp :
  result (routes_rerank.post state query documents) = Ok200 resp →
  query ≠ "" ∧ documents ≠ [] ∧
  routes_rerank.RerankResponse.scores resp
  = reranker.predict (reranker.model (main.reranker state))
                     ((λ doc, (query, doc)) <$> documents) ∧
  routes_rerank.RerankResponse.count resp
  = length (routes_rerank.RerankResponse.scores resp).
Proof.
  destruct query as [|c q], documents as [|d ds]; try (intros H; discriminate H).
  rewrite post_rerank_valid by done. cbn [result]. intros [= <-]. done.
Qed.

Lemma X4_rerank_ok_response_witness :
  ∃ resp,
    result (routes_rerank.post demo.state "q" ["q"; "d"]) = Ok200 resp ∧
    routes_rerank.RerankResponse.count resp
    = length (routes_rerank.RerankResponse.scores resp).
Proof.
  eexists. split; [reflexivity|].
  exact (proj2 (proj2 (proj2
    (X4_rerank_ok_response demo.state "q" ["q"; "d"] _ eq_refl)))).
Defined.

(** X5.  [Reranker.rerank] invokes the cross-encoder exactly when there is a
    document, and then once: on one pair per document, in the order of the
    documents, each pair holding the query first. *)
Theorem X5_rerank_model_called_iff_documents self query documents :
  (∀ pairs,
     CrossEncoder_predict_call pairs ∈ calls (reranker.rerank self query documents)
     ↔ documents ≠ [] ∧ pairs = (λ doc, (query, doc)) <$> documents) ∧
  length (calls (reranker.rerank self query documents))
  = (if decide (documents = []) then 1 else 2) ∧
  snd <$> ((λ doc, (query, doc)) <$> documents) = documents ∧
  fst <$> ((λ doc, (query, doc)) <$> documents)
  = replicate (length documents) query.
Proof.
  split; [|split; [|split]].
  - intros pairs. destruct documents as [|d ds].
    + split; [|by intros [? _]]. intros H.
      apply list_elem_of_singleton in H. discriminate H.
    + rewrite rerank_nonempty by done. cbn [calls]. split.
      * intros H. apply elem_of_cons in H as [H | H]; [discriminate H|].
        apply list_elem_of_singleton in H. by injection H as ->.
      * intros [_ ->]. apply elem_of_cons; right. by apply list_elem_of_singleton.
  - by destruct documents.
  - rewrite <- list_fmap_compose. induction documents as [|d ds IH]; [done|].
    cbn. f_equal. exact IH.
  - rewrite <- list_fmap_compose. induction documents as [|d ds IH]; [done|].
    cbn. f_equal. exact IH.
Qed.

(** ** More on truncation *)

Lemma slice_to_idem n s : PyStr.slice_to n (PyStr.slice_to n s) = PyStr.slice_to n s.
Proof. apply slice_to_short. rewrite slice_to_len. lia. Qed.

Lemma slice_to_app n t u :
  n ≤ PyStr.len t → PyStr.slice_to n (t +:+ u) = PyStr.slice_to n t.
Proof.
  unfold PyStr.len. revert t; induction n as [|n IH]; intros t Hlen; [done|].
  destruct t as [|c t]; [simpl in Hlen; lia|].
  change (String c (PyStr.slice_to n (t +:+ u)) = String c (PyStr.slice_to n t)).
  f_equal. apply IH. simpl in Hlen. lia.
Qed.

Lemma chunk_result_slice round self text1 text2 :
  PyStr.slice_to 2048 text1 = PyStr.slice_to 2048 text2 →
  chunk_result round self text1 = chunk_result round self text2.
Proof. unfold chunk_result. by intros ->. Qed.

(** X6.  [EntityExtractor.extract] treats the chunks independently: the
    results for a list of chunks followed by another are the results for the
    first followed by the results for the second, and so are the pipeline
    calls.  Nothing is remembered from one chunk to the next: [seen] starts
    empty for each chunk. *)
Theorem X6_extract_chunks_independent round self texts1 texts2 :
  result (ner.extract round self (texts1 ++ texts2))
  = result (ner.extract round self texts1)
    ++ result (ner.extract round self texts2) ∧
  tail (calls (ner.extract round self (texts1 ++ texts2)))
  = tail (calls (ner.extract round self texts1))
    ++ tail (calls (ner.extract round self texts2)).
Proof.
  rewrite !extract_spec. cbn [result calls tail]. unfold pipeline_calls.
  by rewrite !fmap_app.
Qed.

(** X7.  Sending back the texts echoed in a result gives the same result:
    truncation is idempotent, and a chunk's result is a function of its
    truncated text. *)
Theorem X7_extract_echo_idempotent round self texts :
  result (ner.extract round self
            (ner.ChunkDict.text <$> result (ner.extract round self texts)))
  = result (ner.extract round self texts).
Proof.
  rewrite !extract_spec. cbn [result]. rewrite <- !list_fmap_compose.
  apply list_fmap_ext. intros _ text _. unfold compose.
  apply chunk_result_slice.
  change (ner.ChunkDict.text (chunk_result round self text))
    with (PyStr.slice_to 2048 text).
  apply slice_to_idem.
Qed.

(** X8.  What follows the 2048th character of a chunk has no influence:
    appending anything to a chunk of at least 2048 characters changes neither
    the results nor the texts given to the model. *)
Theorem X8_text_after_2048_ignored round self before text extra after :
  2048 ≤ PyStr.len text →
  result (ner.extract round self (before ++ (text +:+ extra) :: after))
  = result (ner.extract round self (before ++ text :: after)) ∧
  tail (calls (ner.extract round self (before ++ (text +:+ extra) :: after)))
  = tail (calls (ner.extract round self (before ++ text :: after))).
Proof.
  intros Hlen. rewrite !extract_spec. cbn [result calls tail].
  unfold pipeline_calls. rewrite !fmap_app, !fmap_cons.
  rewrite (chunk_result_slice round self (text +:+ extra) text)
    by by apply slice_to_app.
  by rewrite (slice_to_app 2048 text extra Hlen).
Qed.

Lemma X8_text_after_2048_ignored_witness :
  2048 ≤ PyStr.len demo.long_text ∧
  result (ner.extract demo.round (main.entity_extractor demo.state)
            [demo.long_text +:+ " Apple"])
  = result (ner.extract demo.round (main.entity_extractor demo.state)
              [demo.long_text]).
Proof.
  assert (Hlen : 2048 ≤ PyStr.len demo.long_text).
  { apply Nat.leb_le. vm_compute. reflexivity. }
  split; [exact Hlen|].
  exact (proj1 (X8_text_after_2048_ignored demo.round
                  (main.entity_extractor demo.state) [] demo.long_text
                  " Apple" [] Hlen)).
Defined.

(** ** More on the loop over the raw spans of one chunk *)

Section dedup_more.

Variable round : float → nat → float.

Implicit Types (st : list ner.EntityDict.t * gset string).
Implicit Types (s : ner.RawSpan.t) (raw : list ner.RawSpan.t).

Lemma step_seen st s k :
  k ∈ (ner.extract_step round st s).2
  ↔ k ∈ st.2 ∨ (span.survives s ∧ span.key s = k).
Proof.
  rewrite (seen_spec round [s] st k). split.
  - intros [H | (s' & Hs' & Hl & Hk)]; [by left|].
    apply list_elem_of_singleton in Hs' as ->. by right.
  - intros [H | [Hl Hk]]; [by left|]. right. exists s.
    split; [by apply list_elem_of_singleton | done].
Qed.

(** [seen] is the set of the keys of [entities]. *)
Lemma seen_is_keys raw st :
  (∀ k, k ∈ st.2 ↔ k ∈ entity_key <$> st.1) →
  ∀ k, k ∈ (foldl (ner.extract_step round) st raw).2
       ↔ k ∈ entity_key <$> (foldl (ner.extract_step round) st raw).1.
Proof.
  revert st; induction raw as [|s raw IH]; intros st Hst; [done|].
  rewrite foldl_step_cons. apply IH. intros k.
  destruct (step_cases st s) as [Hskip | [Hlive Hnew]].
  - by rewrite (step_skip _ _ _ Hskip).
  - rewrite (step_keep _ _ _ Hlive Hnew). cbn [fst snd].
    rewrite fmap_app, elem_of_app, elem_of_union, elem_of_singleton, Hst.
    change (entity_key <$> [span.entity round s]) with [span.key s].
    rewrite list_elem_of_singleton. tauto.
Qed.

Lemma entities_sublist raw st :
  ∃ tl, (foldl (ner.extract_step round) st raw).1 = st.1 ++ tl ∧
        tl `sublist_of` (span.entity round <$> raw).
Proof.
  revert st; induction raw as [|s raw IH]; intros st.
  - exists []. split; [by rewrite app_nil_r | constructor].
  - rewrite foldl_step_cons.
    destruct (IH (ner.extract_step round st s)) as (tl & -> & Hsub).
    destruct (step_cases st s) as [Hskip | [Hlive Hnew]].
    + rewrite (step_skip _ _ _ Hskip). exists tl.
      split; [done|]. by apply sublist_cons.
    + rewrite (step_keep _ _ _ Hlive Hnew). cbn [fst].
      exists (span.entity round s :: tl).
      split; [by rewrite <- app_assoc|]. by apply sublist_skip.
Qed.

Lemma entities_first_origin raw st e :
  e ∈ (foldl (ner.extract_step round) st raw).1 →
  e ∈ st.1 ∨
  ∃ l1 s l2, raw = l1 ++ s :: l2 ∧ span.survives s ∧ e = span.entity round s ∧
             (span.key s ∉ st.2) ∧
             ∀ s', s' ∈ l1 → span.survives s' → span.key s' ≠ span.key s.
Proof.
  revert st; induction raw as [|a raw IH]; intros st; [by left|].
  rewrite foldl_step_cons.
  intros [He | (l1 & s & l2 & -> & Hlive & -> & Hnew & Hfirst)]%IH.
  - destruct (step_cases st a) as [Hskip | [Hla Hna]].
    + rewrite (step_skip _ _ _ Hskip) in He. by left.
    + rewrite (step_keep _ _ _ Hla Hna) in He. cbn [fst] in He.
      apply elem_of_app in He as [He | He]; [by left|].
      apply list_elem_of_singleton in He as ->. right.
      exists [], a, raw. split; [done|]. split; [done|]. split; [done|].
      split; [done|]. intros s' Hs'. by inversion Hs'.
  - right. exists (a :: l1), s, l2. split; [done|]. split; [done|].
    split; [done|]. split.
    + intros Hin. apply Hnew, step_seen. by left.
    + intros s' [-> | Hs']%elem_of_cons Hls' Heq; [|by apply (Hfirst s')].
      apply Hnew, step_seen. by right.
Qed.

End dedup_more.

(** X9.  The keys [lower(text)|label] of a chunk's entities are exactly the
    keys of the raw spans that pass the length filter, each key once: the
    de-duplication loses no key and repeats none. *)
Theorem X9_entity_keys_exact round raw :
  NoDup (entity_key <$> ner.chunk_entities round raw) ∧
  ∀ k, k ∈ entity_key <$> ner.chunk_entities round raw
       ↔ ∃ s, s ∈ raw ∧ span.survives s ∧ span.key s = k.
Proof.
  split; [apply chunk_entities_keys_NoDup|]. intros k.
  unfold ner.chunk_entities.
  rewrite <- (seen_is_keys round raw ([], ∅)).
  2: { intros k'. cbn [fst snd]. split; intros H; [|by inversion H].
       by apply not_elem_of_empty in H. }
  rewrite seen_spec. cbn [snd]. split; [|by right].
  intros [H | H]; [|done]. by apply not_elem_of_empty in H.
Qed.

(** X10.  A chunk's entities come in the order of the raw spans: the entity
    list is a sub-list of the list of the spans' entities, so it is never
    longer than the raw output. *)
Theorem X10_entities_in_span_order round raw :
  ner.chunk_entities round raw `sublist_of` (span.entity round <$> raw) ∧
  length (ner.chunk_entities round raw) ≤ length raw.
Proof.
  destruct (entities_sublist round raw ([], ∅)) as (tl & Heq & Hsub).
  unfold ner.chunk_entities. rewrite Heq. cbn [fst app].
  split; [done|]. apply sublist_length in Hsub. by rewrite length_fmap in Hsub.
Qed.

(** X11.  Every entity of a chunk is the entity of the first raw span with
    its key that passes the length filter: its text (with its casing) and
    its rounded score are those of that first span, never those of a later
    span with the same key. *)
Theorem X11_entity_from_first_span round raw e :
  e ∈ ner.chunk_entities round raw →
  ∃ l1 s l2,
    raw = l1 ++ s :: l2 ∧ span.survives s ∧ e = span.entity round s ∧
    ∀ s', s' ∈ l1 → span.survives s' → span.key s' ≠ span.key s.
Proof.
  intros [He | (l1 & s & l2 & Hraw & Hlive & He & _ & Hfirst)]%entities_first_origin.
  - by inversion He.
  - by exists l1, s, l2.
Qed.

Lemma X11_entity_from_first_span_witness :
  ∃ l1 s l2,
    [demo.mk_span "Apple" "ORG"; demo.mk_span "x" "MISC";
     demo.mk_span "##apple" "ORG"] = l1 ++ s :: l2 ∧
    span.survives s ∧
    span.entity demo.round (demo.mk_span "Apple" "ORG") = span.entity demo.round s.
Proof.
  destruct (X11_entity_from_first_span demo.round
              [demo.mk_span "Apple" "ORG"; demo.mk_span "x" "MISC";
               demo.mk_span "##apple" "ORG"]
              (span.entity demo.round (demo.mk_span "Apple" "ORG")))
    as (l1 & s & l2 & Hraw & Hlive & He & _).
  { apply elem_of_cons; left. reflexivity. }
  exists l1, s, l2. split; [exact Hraw|]. split; [exact Hlive | exact He].
Defined.

(** ** The device of the entity extractor *)

(** X12.  The device index given to the pipeline is 0 for "cuda" and
    "cuda:0", 1 for "cuda:1" and -1 (the CPU) for every other device string:
    an unknown device such as "cuda:2" is not an error, the extractor is
    built as for "cpu". *)
Theorem X12_device_index_fallback device :
  (ner.device_idx device = 0%Z ↔ device = "cuda" ∨ device = "cuda:0") ∧
  (ner.device_idx device = 1%Z ↔ device = "cuda:1") ∧
  (ner.device_idx device = (-1)%Z
   ↔ device ≠ "cuda" ∧ device ≠ "cuda:0" ∧ device ≠ "cuda:1") ∧
  ∀ pipeline model_name,
    device ≠ "cuda" → device ≠ "cuda:0" → device ≠ "cuda:1" →
    ner.init_on pipeline model_name device
    = ner.init_on pipeline model_name "cpu".
Proof.
  assert (Hidx :
    device = "cpu" ∧ ner.device_idx device = (-1)%Z ∨
    device = "cuda" ∧ ner.device_idx device = 0%Z ∨
    device = "cuda:0" ∧ ner.device_idx device = 0%Z ∨
    device = "cuda:1" ∧ ner.device_idx device = 1%Z ∨
    (device ≠ "cpu" ∧ device ≠ "cuda" ∧ device ≠ "cuda:0" ∧ device ≠ "cuda:1")
    ∧ ner.device_idx device = (-1)%Z).
  { unfold ner.device_idx, ner.DEVICE_MAP.
    destruct (decide (device = "cpu")) as [->|?]; [by left|].
    destruct (decide (device = "cuda")) as [->|?]; [by right; left|].
    destruct (decide (device = "cuda:0")) as [->|?]; [by right; right; left|].
    destruct (decide (device = "cuda:1")) as [->|?]; [by right; right; right; left|].
    right; right; right; right. split; [done|].
    by rewrite !lookup_insert_ne, lookup_singleton_ne by done. }
  split; [|split; [|split]].
  - split.
    + destruct Hidx as [[-> H]|[[-> H]|[[-> H]|[[-> H]|[_ H]]]]]; rewrite H;
        try done; (by left) || (by right).
    + by intros [-> | ->].
  - split.
    + by destruct Hidx as [[-> H]|[[-> H]|[[-> H]|[[-> H]|[_ H]]]]]; rewrite H.
    + by intros ->.
  - split.
    + by destruct Hidx as [[-> H]|[[-> H]|[[-> H]|[[-> H]|[(_&?&?&?) H]]]]];
        rewrite H.
    + intros (H1 & H2 & H3).
      by destruct Hidx as [[-> H]|[[-> H]|[[-> H]|[[-> H]|[_ H]]]]].
  - intros pipeline model_name H1 H2 H3. unfold ner.init_on. f_equal. f_equal.
    by destruct Hidx as [[-> H]|[[-> H]|[[-> H]|[[-> H]|[_ H]]]]].
Qed.
